(** * Verification of [src/check_with_openai.py]

    Shallow embedding of the chunker [check_text_detailed] and of the two
    claim extractors [check_with_openai] and [check_doc_with_openai].

    Python values are modelled as follows:
    - [int] as [Z], [//] as [Z.div] (both round towards minus infinity);
    - [str] as [string]; the model covers the ASCII subset of Python's
      character set ([str.lower] and [str.split] on ASCII characters);
    - raised exceptions as the [Err] branch of [pyres];
    - values produced by [json.loads] as the inductive [json]
      (Python's [None] is the JSON value [null], so it is [JNull]);
    - [print] as an event appended to an output log. *)

From Stdlib Require Import String Ascii List ZArith Lia Bool Sorted.
Import ListNotations.
Open Scope Z_scope.

(** ** Python exceptions and fallible computations *)

Inductive exn : Type :=
| ValueError (msg : string)
| AttributeError (msg : string)
| JSONDecodeError (msg : string)
| KeyError (msg : string)
| TypeError (msg : string)
| ServiceError (msg : string).

Inductive pyres (A : Type) : Type :=
| Ok (a : A)
| Err (e : exn).
Arguments Ok {A} a.
Arguments Err {A} e.

Definition bind {A B} (m : pyres A) (k : A -> pyres B) : pyres B :=
  match m with
  | Ok a => k a
  | Err e => Err e
  end.

Notation "x <- m ;; k" := (bind m (fun x => k))
  (at level 61, m at next level, right associativity).

(** ** Python strings: [str.lower], [str.split()], [' '.join] *)

(** [c.isspace()] on ASCII characters: \t \n \v \f \r, the separators
    \x1c..\x1f, and the space. *)
Definition is_space (c : ascii) : bool :=
  let n := nat_of_ascii c in
  ((9 <=? n) && (n <=? 13))%nat || ((28 <=? n) && (n <=? 32))%nat.

(** [c.lower()] on ASCII characters. *)
Definition lower_char (c : ascii) : ascii :=
  let n := nat_of_ascii c in
  if ((65 <=? n) && (n <=? 90))%nat then ascii_of_nat (n + 32) else c.

(** [s.lower()] *)
Fixpoint lower (s : string) : string :=
  match s with
  | EmptyString => EmptyString
  | String c s' => String (lower_char c) (lower s')
  end.

(** [s.split()] with no separator: runs of whitespace separate words,
    leading and trailing whitespace produce no empty words.  [cur] is the
    word read so far. *)
Fixpoint split_aux (s : string) (cur : string) : list string :=
  match s with
  | EmptyString =>
      match cur with EmptyString => [] | _ => [cur] end
  | String c s' =>
      if is_space c then
        match cur with
        | EmptyString => split_aux s' EmptyString
        | _ => cur :: split_aux s' EmptyString
        end
      else split_aux s' (cur ++ String c EmptyString)
  end.

Definition split (s : string) : list string := split_aux s EmptyString.

(** [sep.join(ws)] *)
Fixpoint join (sep : string) (ws : list string) : string :=
  match ws with
  | [] => EmptyString
  | [w] => w
  | w :: ws' => w ++ sep ++ join sep ws'
  end.

Definition space : string := String " "%char EmptyString.

(** ** [range] and list slicing *)

(** Length of [range(start, stop, step)] as CPython computes it. *)
Definition range_len (start stop step : Z) : Z :=
  if 0 <? step then
    (if start <? stop then (stop - start - 1) / step + 1 else 0)
  else
    (if stop <? start then (start - stop - 1) / (- step) + 1 else 0).

(** [range(start, stop, step)]: a step of zero raises [ValueError]. *)
Definition range (start stop step : Z) : pyres (list Z) :=
  if step =? 0 then Err (ValueError "range() arg 3 must not be zero")
  else Ok (map (fun k => start + Z.of_nat k * step)
               (seq 0 (Z.to_nat (range_len start stop step)))).

(** Index normalisation of a slice bound (negative indices count from the
    end, then the bound is clipped to [0, len]). *)
Definition slice_bound (n x : Z) : Z :=
  if x <? 0 then Z.max 0 (x + n) else Z.min x n.

(** [l[i:j]] *)
Definition slice {A} (l : list A) (i j : Z) : list A :=
  let n := Z.of_nat (length l) in
  let i' := slice_bound n i in
  let j' := slice_bound n j in
  firstn (Z.to_nat (j' - i')) (skipn (Z.to_nat i') l).

(** ** The chunker *)

(** [check_text_detailed(fp, max_tokens)]; [doc] is the file's content
    as returned by [fp.read_text(encoding='utf-8')]. *)
Definition check_text_detailed (doc : string) (max_tokens : Z)
  : pyres (list (Z * string)) :=
  let words := split (lower doc) in
  let chunk_size := max_tokens / 4 in
  idxs <- range 0 (Z.of_nat (length words)) chunk_size ;;
  Ok (map (fun start_idx =>
             (start_idx, join space (slice words start_idx (start_idx + chunk_size))))
          idxs).

(** ** JSON values as produced by [json.loads]

    Objects keep their members in source order; [json.loads] keeps the
    last value of a repeated key, which [dict_get] reproduces.  Numbers are
    modelled by their integer value. *)

Local Set Warnings "-register-all".
Inductive json : Type :=
| JNull
| JBool (b : bool)
| JInt (z : Z)
| JStr (s : string)
| JArr (l : list json)
| JObj (kvs : list (string * json)).

(** Python truthiness ([bool(v)]) of a parsed JSON value. *)
Definition py_truthy (v : json) : bool :=
  match v with
  | JNull => false
  | JBool b => b
  | JInt z => negb (z =? 0)
  | JStr s => negb (String.eqb s EmptyString)
  | JArr l => match l with [] => false | _ => true end
  | JObj kvs => match kvs with [] => false | _ => true end
  end.

(** Lookup in a dict built by [json.loads]: the last binding of [k]. *)
Fixpoint dict_get (kvs : list (string * json)) (k : string) : option json :=
  match kvs with
  | [] => None
  | (k', v) :: rest =>
      match dict_get rest k with
      | Some v' => Some v'
      | None => if String.eqb k k' then Some v else None
      end
  end.

(** [v.get(k, default)]: only dicts have a [get] method. *)
Definition get_method (v : json) (k : string) (default : json) : pyres json :=
  match v with
  | JObj kvs =>
      Ok (match dict_get kvs k with Some x => x | None => default end)
  | _ => Err (AttributeError "object has no attribute 'get'")
  end.

(** [v[k]] for a string key. *)
Definition getitem (v : json) (k : string) : pyres json :=
  match v with
  | JObj kvs =>
      match dict_get kvs k with
      | Some x => Ok x
      | None => Err (KeyError k)
      end
  | _ => Err (TypeError "indices must be integers")
  end.

(** What [print] writes in the two [except] branches. *)
Inductive event : Type :=
| ChunkFailed (start_index : Z) (e : exn)  (* "Failed on chunk starting at ..." *)
| DocFailed (e : exn).                      (* "Failed with error: ..." *)

Definition newline : string := String (ascii_of_nat 10) EmptyString.

(** ** The claim extractors *)

Section Extractors.

(** The remote completion service: [client.Completion.create(model=...,
    prompt=..., max_tokens=...)] followed by [response.choices[0].text].
    Any exception raised on the way (transport, authentication, an
    attribute missing on the client, an empty [choices]) is an [Err]. *)
Variable completion_create : string -> string -> Z -> pyres string.

(** [json.loads]. *)
Variable json_loads : string -> pyres json.

(** The body of the [try] block of [check_with_openai] for one chunk:
    [Some record] when a record is appended, [None] when nothing is. *)
Definition try_chunk (model system_prompt : string) (start_index : Z)
  (chunk : string) : pyres (option (Z * string * json)) :=
  text <- completion_create model (system_prompt ++ newline ++ newline ++ chunk) 150 ;;
  as_json <- json_loads text ;;
  c <- get_method as_json "claims" JNull ;;
  if py_truthy c then
    v <- getitem as_json "claims" ;;
    Ok (Some (start_index, chunk, v))
  else Ok None.

(** The [for] loop of [check_with_openai], with [relevant_documents] and
    the printed output threaded through. *)
Fixpoint check_loop (model system_prompt : string) (chunks : list (Z * string))
  (relevant_documents : list (Z * string * json)) (out : list event)
  : list (Z * string * json) * list event :=
  match chunks with
  | [] => (relevant_documents, out)
  | (start_index, chunk) :: rest =>
      match try_chunk model system_prompt start_index chunk with
      | Ok (Some r) => check_loop model system_prompt rest (relevant_documents ++ [r]) out
      | Ok None => check_loop model system_prompt rest relevant_documents out
      | Err e =>
          check_loop model system_prompt rest relevant_documents
            (out ++ [ChunkFailed start_index e])
      end
  end.

(** [check_with_openai(chunks, model, system_prompt, openai_api_key)]:
    the returned list and the printed output.  The client handle built
    from the key is the one [completion_create] stands for. *)
Definition check_with_openai (chunks : list (Z * string))
  (model system_prompt openai_api_key : string)
  : list (Z * string * json) * list event :=
  check_loop model system_prompt chunks [] [].

(** [check_doc_with_openai(doc, model, system_prompt, openai_api_key)]:
    the returned value ([None] is [JNull]) and the printed output. *)
Definition check_doc_with_openai (doc model system_prompt openai_api_key : string)
  : json * list event :=
  match (text <- completion_create model (system_prompt ++ newline ++ newline ++ doc) 300 ;;
         as_json <- json_loads text ;;
         get_method as_json "claims" (JArr []))
  with
  | Ok v => (v, [])
  | Err e => (JNull, [DocFailed e])
  end.

(** What one chunk adds to the result list and to the printed output. *)
Definition chunk_records (model system_prompt : string) (c : Z * string) : list (Z * string * json) :=
  match try_chunk model system_prompt (fst c) (snd c) with
  | Ok (Some r) => [r]
  | _ => []
  end.

Definition chunk_events (model system_prompt : string) (c : Z * string) : list event :=
  match try_chunk model system_prompt (fst c) (snd c) with
  | Err e => [ChunkFailed (fst c) e]
  | _ => []
  end.

End Extractors.

(** ** A concrete service, used to run the extractors on examples

    [demo_create] answers a prompt ending in "bad" with a transport error
    and any other prompt with [demo_response]; [demo_json_loads] parses
    the response texts used here as [json.loads] does and rejects the
    rest. *)

Definition dq : string := String (ascii_of_nat 34) EmptyString.

(** {"claims": [1]} *)
Definition demo_response : string :=
  "{" ++ dq ++ "claims" ++ dq ++ ": [1]}".

(** {"claims": null} *)
Definition null_response : string :=
  "{" ++ dq ++ "claims" ++ dq ++ ": null}".

(** {"claims": []} *)
Definition empty_response : string :=
  "{" ++ dq ++ "claims" ++ dq ++ ": []}".

Definition demo_json_loads (text : string) : pyres json :=
  if String.eqb text demo_response then Ok (JObj [("claims"%string, JArr [JInt 1])])
  else if String.eqb text null_response then Ok (JObj [("claims"%string, JNull)])
  else if String.eqb text empty_response then Ok (JObj [("claims"%string, JArr [])])
  else Err (JSONDecodeError "Expecting value").

Fixpoint ends_with_bad (s : string) : bool :=
  match s with
  | EmptyString => false
  | String _ rest => String.eqb s "bad" || ends_with_bad rest
  end.

Definition demo_create (model prompt : string) (max_tokens : Z) : pyres string :=
  if ends_with_bad prompt then Err (ServiceError "connection reset")
  else Ok demo_response.

(** * Definitions used by the statements *)

Fixpoint has_space (w : string) : bool :=
  match w with
  | EmptyString => false
  | String c w' => is_space c || has_space w'
  end.

(** A word as [str.split()] produces it. *)
Definition good_word (w : string) : Prop := w <> EmptyString /\ has_space w = false.

(** The [k]-th window of [cs] words. *)
Definition chunk_words (words : list string) (cs k : nat) : list string :=
  firstn cs (skipn (k * cs) words).

(** Number of windows: the length of [range(0, n, chunk_size)]. *)
Definition nchunks (n : nat) (chunk_size : Z) : nat :=
  Z.to_nat (range_len 0 (Z.of_nat n) chunk_size).

(** [l1] is an in-order subsequence of [l2]. *)
Inductive sublist {A} : list A -> list A -> Prop :=
| sublist_nil : sublist [] []
| sublist_skip x l1 l2 : sublist l1 l2 -> sublist l1 (x :: l2)
| sublist_take x l1 l2 : sublist l1 l2 -> sublist (x :: l1) (x :: l2).

(** C2 as stated: every [max_tokens < 4] makes the chunker fail. *)
Definition chunker_rejects_small_budget : Prop :=
  forall doc max_tokens, max_tokens < 4 -> exists e, check_text_detailed doc max_tokens = Err e.

(** C5 as stated: whenever the call succeeds and its text parses as a
    JSON object, whole-document mode returns something other than the
    failure sentinel [None]. *)
Definition doc_success_not_sentinel : Prop :=
  forall (completion_create : string -> string -> Z -> pyres string)
         (json_loads : string -> pyres json) (doc model system_prompt key : string),
    (exists text kvs,
        completion_create model (system_prompt ++ newline ++ newline ++ doc)%string 300 = Ok text /\
        json_loads text = Ok (JObj kvs)) ->
    fst (check_doc_with_openai completion_create json_loads doc model system_prompt key) <> JNull.

(** An ASCII capital letter, the characters [str.lower] changes. *)
Definition is_upper (c : ascii) : bool :=
  let n := nat_of_ascii c in ((65 <=? n) && (n <=? 90))%nat.

(** Every character of [s] satisfies [f]. *)
Fixpoint str_all (f : ascii -> bool) (s : string) : bool :=
  match s with
  | EmptyString => true
  | String c s' => f c && str_all f s'
  end.

(** With openai >= 1.0 the client has no [Completion] attribute, so
    [client.Completion.create] raises on every call. *)
Definition missing_completion_attr : exn :=
  AttributeError "'OpenAI' object has no attribute 'Completion'".

Definition failing_create (model prompt : string) (max_tokens : Z) : pyres string :=
  Err missing_completion_attr.

(** The chunks of "a b c" for [max_tokens = 4]. *)
Definition abc_chunks : list (Z * string) := [(0, "a"%string); (1, "b"%string); (2, "c"%string)].

(** * Examples *)

Example check_text_detailed_ex :
  check_text_detailed "The  quick brown" 8 = Ok [(0, "the quick"%string); (2, "brown"%string)].
Proof. reflexivity. Qed.

Example check_with_openai_ex :
  check_with_openai demo_create demo_json_loads
    [(0, "one"%string); (2, "bad"%string); (4, "two"%string)] "m" "p" "k"
  = ([(0, "one"%string, JArr [JInt 1]); (4, "two"%string, JArr [JInt 1])],
     [ChunkFailed 2 (ServiceError "connection reset")]).
Proof. reflexivity. Qed.

(** * Properties of the chunker *)

(** ** Strings *)

Lemma str_app_assoc (a b c : string) : ((a ++ b) ++ c = a ++ (b ++ c))%string.
Proof. induction a as [|x a IH]; simpl; [reflexivity | now rewrite IH]. Qed.

Lemma str_app_nil_r (a : string) : (a ++ EmptyString)%string = a.
Proof. induction a as [|x a IH]; simpl; [reflexivity | now rewrite IH]. Qed.

Lemma has_space_app (a b : string) : has_space (a ++ b)%string = has_space a || has_space b.
Proof. induction a as [|x a IH]; simpl; [reflexivity | now rewrite IH, orb_assoc]. Qed.

Lemma str_app_nonempty_r (a b : string) : b <> EmptyString -> (a ++ b)%string <> EmptyString.
Proof. destruct a; simpl; [auto | discriminate]. Qed.

Lemma split_aux_good (s cur : string) :
  has_space cur = false -> Forall good_word (split_aux s cur).
Proof.
  revert cur; induction s as [|c s IH]; intros cur Hcur; simpl.
  - destruct cur; constructor; [split; [discriminate | exact Hcur] | constructor].
  - destruct (is_space c) eqn:Hc.
    + destruct cur; [now apply IH | constructor].
      * split; [discriminate | exact Hcur].
      * now apply IH.
    + apply IH. rewrite has_space_app, Hcur. simpl. now rewrite Hc.
Qed.

Lemma split_good (s : string) : Forall good_word (split s).
Proof. now apply split_aux_good. Qed.

Lemma split_aux_word (w s cur : string) :
  has_space w = false -> split_aux (w ++ s)%string cur = split_aux s (cur ++ w)%string.
Proof.
  revert cur; induction w as [|c w IH]; intros cur Hw; simpl.
  - now rewrite str_app_nil_r.
  - simpl in Hw. apply orb_false_iff in Hw as [Hc Hw].
    rewrite Hc, IH by exact Hw. now rewrite str_app_assoc.
Qed.

Lemma split_aux_space (r cur : string) :
  split_aux (space ++ r)%string cur =
  match cur with
  | EmptyString => split_aux r EmptyString
  | _ => cur :: split_aux r EmptyString
  end.
Proof. reflexivity. Qed.

Lemma split_aux_join (ws : list string) (w cur : string) :
  good_word w -> Forall good_word ws ->
  split_aux (join space (w :: ws)) cur = (cur ++ w)%string :: ws.
Proof.
  revert w cur; induction ws as [|w' ws IH]; intros w cur [Hne Hsp] Hws.
  - simpl. rewrite <- (str_app_nil_r w) at 1. rewrite split_aux_word by exact Hsp.
    simpl. destruct (cur ++ w)%string eqn:E; [|reflexivity].
    exfalso. exact (str_app_nonempty_r cur w Hne E).
  - inversion Hws as [|? ? Hw' Hws']; subst.
    change (join space (w :: w' :: ws)) with (w ++ space ++ join space (w' :: ws))%string.
    rewrite split_aux_word by exact Hsp. rewrite split_aux_space.
    rewrite IH by assumption.
    destruct (cur ++ w)%string eqn:E; [|reflexivity].
    exfalso. exact (str_app_nonempty_r cur w Hne E).
Qed.

(** [' '.join] followed by [str.split()] gives the words back. *)
Lemma split_join (ws : list string) :
  Forall good_word ws -> split (join space ws) = ws.
Proof.
  destruct ws as [|w ws]; intros H; [reflexivity|].
  inversion H; subst. unfold split. now rewrite split_aux_join.
Qed.

Lemma join_app (sep : string) (l1 l2 : list string) :
  l1 <> [] -> l2 <> [] -> join sep (l1 ++ l2) = (join sep l1 ++ sep ++ join sep l2)%string.
Proof.
  intros H1 H2. induction l1 as [|a l1 IH]; [congruence|].
  destruct l1 as [|b l1].
  - simpl. destruct l2; [congruence | reflexivity].
  - change ((a :: b :: l1) ++ l2) with (a :: ((b :: l1) ++ l2)).
    change (join sep (a :: (b :: l1) ++ l2)) with (a ++ sep ++ join sep ((b :: l1) ++ l2)%list)%string.
    rewrite IH by discriminate.
    change (join sep (a :: b :: l1)) with (a ++ sep ++ join sep (b :: l1))%string.
    now rewrite !str_app_assoc.
Qed.

Lemma join_concat (sep : string) (wss : list (list string)) :
  Forall (fun l => l <> []) wss ->
  join sep (map (join sep) wss) = join sep (concat wss).
Proof.
  induction wss as [|l wss IH]; intros H; [reflexivity|].
  inversion H as [|? ? Hl Hwss]; subst.
  destruct wss as [|l' wss].
  - simpl. now rewrite app_nil_r.
  - inversion Hwss as [|? ? Hl' _]; subst.
    change (join sep (map (join sep) (l :: l' :: wss)))
      with (join sep l ++ sep ++ join sep (map (join sep) (l' :: wss)))%string.
    rewrite IH by exact Hwss.
    change (concat (l :: l' :: wss)) with (l ++ concat (l' :: wss)).
    rewrite join_app; [reflexivity | exact Hl |].
    simpl. destruct l'; [congruence | discriminate].
Qed.

Lemma join_nonempty (sep : string) (ws : list string) :
  ws <> [] -> Forall good_word ws -> join sep ws <> EmptyString.
Proof.
  intros Hne H. destruct ws as [|w ws]; [congruence|].
  inversion H as [|? ? [Hw _] _]; subst.
  destruct ws; simpl; [exact Hw|].
  destruct w; [congruence | discriminate].
Qed.

(** ** Lists *)

Lemma firstn_plus {A} (a b : nat) (l : list A) :
  firstn (a + b) l = firstn a l ++ firstn b (skipn a l).
Proof.
  revert l; induction a as [|a IH]; intros l; [reflexivity|].
  destruct l as [|x l]; simpl; [now rewrite firstn_nil | now rewrite IH].
Qed.

Lemma Forall_firstn' {A} (P : A -> Prop) (n : nat) (l : list A) :
  Forall P l -> Forall P (firstn n l).
Proof.
  revert l; induction n as [|n IH]; intros l H; [constructor|].
  destruct l; simpl; [constructor|]. inversion H; subst. constructor; auto.
Qed.

Lemma Forall_skipn' {A} (P : A -> Prop) (n : nat) (l : list A) :
  Forall P l -> Forall P (skipn n l).
Proof.
  revert l; induction n as [|n IH]; intros l H; [exact H|].
  destruct l; simpl; [constructor|]. inversion H; subst. auto.
Qed.

(** [l[i:i+cs]] for non-negative [i] and [cs]. *)
Lemma slice_nat {A} (l : list A) (i cs : nat) :
  slice l (Z.of_nat i) (Z.of_nat i + Z.of_nat cs) = firstn cs (skipn i l).
Proof.
  unfold slice, slice_bound.
  rewrite (proj2 (Z.ltb_ge (Z.of_nat i) 0)) by lia.
  rewrite (proj2 (Z.ltb_ge (Z.of_nat i + Z.of_nat cs) 0)) by lia.
  destruct (Nat.le_gt_cases (length l) i) as [Hle | Hlt].
  - replace (Z.to_nat (Z.min (Z.of_nat i) (Z.of_nat (length l)))) with (length l) by lia.
    assert (Hs : skipn i l = []) by (apply skipn_all2; lia).
    now rewrite Hs, skipn_all, !firstn_nil.
  - replace (Z.to_nat (Z.min (Z.of_nat i) (Z.of_nat (length l)))) with i by lia.
    replace (Z.to_nat _) with (Nat.min cs (length l - i)) by lia.
    destruct (Nat.le_ge_cases cs (length l - i)) as [H | H].
    + now rewrite Nat.min_l by exact H.
    + rewrite Nat.min_r by exact H.
      rewrite <- length_skipn, firstn_all, firstn_all2 by (rewrite length_skipn; lia).
      reflexivity.
Qed.

Lemma concat_chunk_words (w : list string) (cs m k : nat) :
  concat (map (chunk_words w cs) (seq k m)) = firstn (m * cs) (skipn (k * cs) w).
Proof.
  revert k; induction m as [|m IH]; intros k; [reflexivity|].
  simpl seq. simpl map. simpl concat. rewrite IH.
  unfold chunk_words.
  replace (S m * cs)%nat with (cs + m * cs)%nat by lia.
  rewrite firstn_plus, skipn_skipn.
  replace (S k * cs)%nat with (cs + k * cs)%nat by lia. reflexivity.
Qed.

Lemma chunk_words_length (w : list string) (cs k : nat) :
  length (chunk_words w cs k) = Nat.min cs (length w - k * cs).
Proof. unfold chunk_words. now rewrite length_firstn, length_skipn. Qed.

(** Arithmetic of the windows, for a positive chunk size. *)
Lemma nchunks_facts (n : nat) (c : Z) :
  0 < c ->
  let L := nchunks n c in
  let cs := Z.to_nat c in
  (n <= L * cs)%nat /\
  (forall k, (k < L)%nat -> (k * cs < n)%nat) /\
  (forall k, (S k < L)%nat -> (S k * cs <= n)%nat) /\
  ((0 < L)%nat ->
   Z.of_nat (n - (L - 1) * cs) =
   if Z.of_nat n mod c =? 0 then c else Z.of_nat n mod c).
Proof.
  intros Hc L cs. unfold L, cs, nchunks, range_len.
  rewrite (proj2 (Z.ltb_lt 0 c) Hc).
  destruct (Z.ltb_spec 0 (Z.of_nat n)) as [Hn | Hn].
  - set (N := Z.of_nat n) in *.
    pose proof (Z.div_mod (N - 0 - 1) c ltac:(lia)) as Hdm.
    pose proof (Z.mod_pos_bound (N - 0 - 1) c Hc) as Hr.
    pose proof (Z.div_pos (N - 0 - 1) c ltac:(lia) Hc) as Hq.
    set (q := (N - 0 - 1) / c) in *. set (r := (N - 0 - 1) mod c) in *.
    assert (HN : N = c * q + (r + 1)) by lia.
    split; [|split; [|split]].
    + nia.
    + intros k Hk. assert (Z.of_nat k <= q) by lia. nia.
    + intros k Hk. assert (Z.of_nat k + 1 <= q) by lia. nia.
    + intros _.
      assert (Hmod : N mod c = (r + 1) mod c).
      { rewrite HN, Z.add_comm, Z.mul_comm. apply Z.mod_add. lia. }
      replace (Z.to_nat (q + 1) - 1)%nat with (Z.to_nat q) by lia.
      destruct (Z.eq_dec (r + 1) c) as [Hrc | Hrc].
      * rewrite Hmod, Hrc, Z.mod_same by lia. simpl. nia.
      * rewrite Hmod, Z.mod_small by lia.
        destruct (Z.eqb_spec (r + 1) 0); [lia|]. nia.
  - replace n with 0%nat by lia. simpl.
    repeat split; intros; lia.
Qed.

(** For a valid [max_tokens], the chunker returns the windows of
    [max_tokens // 4] words, each tagged with its first word's index. *)
Lemma check_text_detailed_windows (doc : string) (max_tokens : Z) :
  4 <= max_tokens ->
  check_text_detailed doc max_tokens =
  Ok (map (fun k => (Z.of_nat k * (max_tokens / 4),
                     join space (chunk_words (split (lower doc)) (Z.to_nat (max_tokens / 4)) k)))
          (seq 0 (nchunks (length (split (lower doc))) (max_tokens / 4)))).
Proof.
  intros Hmt. assert (Hc : 1 <= max_tokens / 4).
  { apply Z.div_le_lower_bound; lia. }
  unfold check_text_detailed, range, nchunks.
  rewrite (proj2 (Z.eqb_neq (max_tokens / 4) 0)) by lia. simpl.
  rewrite map_map. f_equal. apply map_ext. intros k. f_equal. f_equal.
  unfold chunk_words. rewrite <- slice_nat. f_equal; nia.
Qed.

Lemma chunk_words_good (s : string) (cs k : nat) :
  Forall good_word (chunk_words (split s) cs k).
Proof. apply Forall_firstn', Forall_skipn', split_good. Qed.

Lemma chunk_words_nonempty (w : list string) (c : Z) (k : nat) :
  0 < c -> (k < nchunks (length w) c)%nat -> chunk_words w (Z.to_nat c) k <> [].
Proof.
  intros Hc Hk H. destruct (nchunks_facts (length w) c Hc) as [_ [Hlt _]].
  specialize (Hlt k Hk).
  apply (f_equal (@length string)) in H. rewrite chunk_words_length in H.
  simpl in H. lia.
Qed.

(** * Claims about the chunker *)

(** C1: for every document and every [max_tokens >= 4], joining the chunk
    texts in order with single spaces gives back the lower-cased document
    with its whitespace normalised, i.e. [' '.join(doc.lower().split())]. *)
Theorem chunks_cover_document (doc : string) (max_tokens : Z) :
  4 <= max_tokens ->
  exists chunks,
    check_text_detailed doc max_tokens = Ok chunks /\
    join space (map snd chunks) = join space (split (lower doc)).
Proof.
  intros Hmt. assert (Hc : 0 < max_tokens / 4).
  { apply Z.div_str_pos; lia. }
  eexists; split; [apply check_text_detailed_windows; exact Hmt|].
  set (w := split (lower doc)). set (c := max_tokens / 4) in *.
  rewrite map_map. simpl.
  rewrite <- (map_map (chunk_words w (Z.to_nat c)) (join space)).
  rewrite join_concat.
  - rewrite concat_chunk_words. simpl.
    destruct (nchunks_facts (length w) c Hc) as [Hcov _].
    now rewrite firstn_all2 by exact Hcov.
  - apply Forall_forall. intros l Hl. apply in_map_iff in Hl as [k [<- Hk]].
    apply in_seq in Hk. apply chunk_words_nonempty; [exact Hc | lia].
Qed.

(** C6: for every document and every [max_tokens >= 4], every chunk but
    the last holds [max_tokens // 4] words, and the last one holds
    [len(words) % (max_tokens // 4)] words, or [max_tokens // 4] when that
    remainder is zero.  The words of a chunk are those [str.split()]
    finds in its text. *)
Theorem chunk_sizes (doc : string) (max_tokens : Z) :
  4 <= max_tokens ->
  exists chunks,
    check_text_detailed doc max_tokens = Ok chunks /\
    forall i s t, nth_error chunks i = Some (s, t) ->
      ((S i < length chunks)%nat ->
         Z.of_nat (length (split t)) = max_tokens / 4) /\
      (S i = length chunks ->
         let n := Z.of_nat (length (split (lower doc))) in
         Z.of_nat (length (split t)) =
         if n mod (max_tokens / 4) =? 0 then max_tokens / 4 else n mod (max_tokens / 4)).
Proof.
  intros Hmt. assert (Hc : 0 < max_tokens / 4).
  { apply Z.div_str_pos; lia. }
  eexists; split; [apply check_text_detailed_windows; exact Hmt|].
  set (w := split (lower doc)). set (c := max_tokens / 4) in *.
  intros i s t Hi.
  rewrite nth_error_map, nth_error_seq in Hi.
  destruct (Nat.ltb_spec i (nchunks (length w) c)) as [Hlt|]; [|discriminate].
  simpl in Hi. injection Hi as _ Ht. subst t.
  rewrite split_join by apply chunk_words_good.
  rewrite chunk_words_length, length_map, length_seq.
  destruct (nchunks_facts (length w) c Hc) as [_ [_ [Hfull Hlast]]].
  split.
  - intros HS. specialize (Hfull i HS). lia.
  - intros HS. cbv zeta. specialize (Hlast ltac:(lia)).
    replace (nchunks (length w) c - 1)%nat with i in Hlast by lia.
    pose proof (Z.mod_pos_bound (Z.of_nat (length w)) c Hc).
    set (m := Z.of_nat (length w) mod c) in *.
    destruct (m =? 0); lia.
Qed.

(** C7: for every document and every [max_tokens >= 4], the start index
    of the [i]-th chunk (counting from 0) is [i * (max_tokens // 4)]. *)
Theorem chunk_offsets (doc : string) (max_tokens : Z) :
  4 <= max_tokens ->
  exists chunks,
    check_text_detailed doc max_tokens = Ok chunks /\
    forall i s t, nth_error chunks i = Some (s, t) -> s = Z.of_nat i * (max_tokens / 4).
Proof.
  intros Hmt.
  eexists; split; [apply check_text_detailed_windows; exact Hmt|].
  intros i s t Hi.
  rewrite nth_error_map, nth_error_seq in Hi.
  destruct (Nat.ltb _ _); [|discriminate].
  simpl in Hi. now injection Hi as <- _.
Qed.

(** C8: for every [max_tokens >= 4], no chunk text is empty, and the
    empty document gives the empty list of chunks. *)
Theorem chunks_nonempty (doc : string) (max_tokens : Z) :
  4 <= max_tokens ->
  exists chunks,
    check_text_detailed doc max_tokens = Ok chunks /\
    (forall s t, In (s, t) chunks -> t <> EmptyString) /\
    (doc = EmptyString -> chunks = []).
Proof.
  intros Hmt. assert (Hc : 0 < max_tokens / 4).
  { apply Z.div_str_pos; lia. }
  eexists; split; [apply check_text_detailed_windows; exact Hmt|].
  split.
  - intros s t Hin. apply in_map_iff in Hin as [k [Hk Hseq]].
    injection Hk as _ <-. apply in_seq in Hseq.
    apply join_nonempty; [|apply chunk_words_good].
    apply chunk_words_nonempty; [exact Hc | lia].
  - intros ->. unfold nchunks, range_len.
    rewrite (proj2 (Z.ltb_lt 0 _) Hc). reflexivity.
Qed.

(** C2, counterexample: with [max_tokens = -4] the chunk size is
    [-4 // 4 = -1], [range(0, 1, -1)] is empty and the chunker returns the
    empty list on the document "a" instead of failing. *)
Lemma small_budget_negative_no_error : ~ chunker_rejects_small_budget.
Proof.
  intros H. destruct (H "a"%string (-4) ltac:(lia)) as [e He].
  vm_compute in He. discriminate.
Qed.

(** C2, amended: for [0 <= max_tokens < 4] the chunk size is 0 and the
    chunker fails with the [ValueError] of [range] (no guard of its own);
    for a negative [max_tokens] it returns the empty list. *)
Theorem small_budget_behaviour (doc : string) (max_tokens : Z) :
  max_tokens < 4 ->
  check_text_detailed doc max_tokens =
  if max_tokens <? 0 then Ok []
  else Err (ValueError "range() arg 3 must not be zero").
Proof.
  intros Hmt. unfold check_text_detailed, range.
  destruct (Z.ltb_spec max_tokens 0) as [Hneg | Hpos].
  - assert (Hq : max_tokens / 4 < 0) by (apply Z.div_lt_upper_bound; lia).
    rewrite (proj2 (Z.eqb_neq (max_tokens / 4) 0)) by lia. simpl.
    unfold range_len.
    rewrite (proj2 (Z.ltb_ge 0 (max_tokens / 4))) by lia.
    rewrite (proj2 (Z.ltb_ge (Z.of_nat (length (split (lower doc)))) 0)) by lia.
    reflexivity.
  - rewrite Z.div_small by lia. reflexivity.
Qed.

Lemma small_budget_behaviour_witness :
  2 < 4 /\
  check_text_detailed "a b"%string 2 = Err (ValueError "range() arg 3 must not be zero").
Proof.
  split; [lia|]. apply (small_budget_behaviour "a b"%string 2). lia.
Defined.

(** * Properties of the claim extractors *)

Section ExtractorProps.

Variable completion_create : string -> string -> Z -> pyres string.
Variable json_loads : string -> pyres json.
Variables model system_prompt openai_api_key : string.

Local Abbreviation run chunks :=
  (check_with_openai completion_create json_loads chunks model system_prompt openai_api_key).

Local Abbreviation records := (chunk_records completion_create json_loads model system_prompt).
Local Abbreviation events := (chunk_events completion_create json_loads model system_prompt).

Local Abbreviation prompt_of chunk :=
  (system_prompt ++ newline ++ newline ++ chunk)%string.

 
Lemma check_loop_flat (chunks : list (Z * string)) rel out :
  check_loop completion_create json_loads model system_prompt chunks rel out =
  (rel ++ flat_map records chunks, out ++ flat_map events chunks).
Proof.
  revert rel out; induction chunks as [|[s t] chunks IH]; intros rel out; simpl.
  - now rewrite !app_nil_r.
  - unfold chunk_records at 1, chunk_events at 1. simpl.
    destruct (try_chunk _ _ _ _ s t) as [[r|]|e]; rewrite IH; simpl;
      now rewrite <- ?app_assoc.
Qed.

Lemma run_flat (chunks : list (Z * string)) :
  run chunks = (flat_map records chunks, flat_map events chunks).
Proof. unfold run, check_with_openai. now rewrite check_loop_flat. Qed.

(** The records of a chunk are those of [try_chunk]. *)
Lemma try_chunk_some (s : Z) (t : string) (r : Z * string * json) :
  try_chunk completion_create json_loads model system_prompt s t = Ok (Some r) ->
  exists text kvs v,
    completion_create model (prompt_of t) 150 = Ok text /\
    json_loads text = Ok (JObj kvs) /\
    dict_get kvs "claims" = Some v /\ py_truthy v = true /\ r = (s, t, v).
Proof.
  unfold try_chunk, prompt_of, bind.
  destruct (completion_create _ _ _) as [text|e] eqn:Hc; [|discriminate].
  destruct (json_loads text) as [j|e] eqn:Hj; [|discriminate].
  destruct j as [| | | | |kvs]; try discriminate.
  simpl. destruct (dict_get kvs "claims") as [v|] eqn:Hg; simpl.
  - destruct (py_truthy v) eqn:Ht; [|discriminate].
    intros H. injection H as <-. exists text, kvs, v. auto 6.
  - discriminate.
Qed.

Lemma try_chunk_err (s : Z) (t : string) (e : exn) :
  (completion_create model (prompt_of t) 150 = Err e \/
   exists text, completion_create model (prompt_of t) 150 = Ok text /\ json_loads text = Err e) ->
  try_chunk completion_create json_loads model system_prompt s t = Err e.
Proof.
  unfold try_chunk, bind. intros [H | [text [H1 H2]]].
  - now rewrite H.
  - now rewrite H1, H2.
Qed.

Lemma try_chunk_some_iff (s : Z) (t : string) :
  (exists r, try_chunk completion_create json_loads model system_prompt s t = Ok (Some r)) <->
  exists text kvs v,
    completion_create model (prompt_of t) 150 = Ok text /\
    json_loads text = Ok (JObj kvs) /\
    dict_get kvs "claims" = Some v /\ py_truthy v = true.
Proof.
  split.
  - intros [r Hr]. destruct (try_chunk_some s t r Hr) as (text & kvs & v & H1 & H2 & H3 & H4 & _).
    exists text, kvs, v. auto.
  - intros (text & kvs & v & H1 & H2 & H3 & H4). exists (s, t, v).
    unfold try_chunk, bind. rewrite H1, H2. simpl. rewrite H3, H4. simpl. now rewrite ?H3.
Qed.

(** C3: when the call or the JSON parsing of one chunk raises [e], the
    extractor prints the chunk's start index with [e] and goes on: the
    result list is the one computed without that chunk, and the printed
    output is that of the chunks before it, the failure, then that of the
    chunks after it. *)
Theorem chunk_failure_isolated (l1 : list (Z * string)) (s : Z) (t : string)
  (l2 : list (Z * string)) (e : exn) :
  (completion_create model (prompt_of t) 150 = Err e \/
   exists text, completion_create model (prompt_of t) 150 = Ok text /\ json_loads text = Err e) ->
  run (l1 ++ (s, t) :: l2) =
  (fst (run (l1 ++ l2)), snd (run l1) ++ [ChunkFailed s e] ++ snd (run l2)).
Proof.
  intros H. pose proof (try_chunk_err s t e H) as Ht.
  rewrite !run_flat. simpl. rewrite !flat_map_app. simpl.
  unfold chunk_records at 2, chunk_events at 2. simpl. now rewrite Ht.
Qed.

(** C4: a chunk adds a record to the result exactly when the call
    succeeds, its text parses as a JSON object, and the object's "claims"
    member is present and truthy (for a list: non-empty); otherwise it
    adds nothing. *)
Theorem chunk_included_iff_claims (l1 : list (Z * string)) (s : Z) (t : string)
  (l2 : list (Z * string)) :
  exists r,
    fst (run (l1 ++ (s, t) :: l2)) = fst (run l1) ++ r ++ fst (run l2) /\
    (r <> [] <->
     exists text kvs v,
       completion_create model (prompt_of t) 150 = Ok text /\
       json_loads text = Ok (JObj kvs) /\
       dict_get kvs "claims" = Some v /\ py_truthy v = true).
Proof.
  exists (records (s, t)). split.
  - rewrite !run_flat. simpl. now rewrite flat_map_app.
  - rewrite <- (try_chunk_some_iff s t). unfold chunk_records. simpl.
    destruct (try_chunk _ _ _ _ s t) as [[r|]|e].
    + split; [intros _; now exists r | discriminate].
    + split; [congruence | intros [r Hr]; discriminate].
    + split; [congruence | intros [r Hr]; discriminate].
Qed.

(** C9: the records come out in the order of their chunks: dropping the
    claims from the result gives an in-order subsequence of the input. *)
Theorem output_in_input_order (chunks : list (Z * string)) :
  sublist (map (fun '(s, t, _) => (s, t)) (fst (run chunks))) chunks.
Proof.
  rewrite run_flat. simpl.
  induction chunks as [|[s t] chunks IH]; simpl; [constructor|].
  unfold chunk_records at 1. simpl.
  destruct (try_chunk _ _ _ _ s t) as [[r|]|e] eqn:Ht.
  - destruct (try_chunk_some s t r Ht) as (_ & _ & v & _ & _ & _ & _ & ->).
    simpl. now constructor.
  - now constructor.
  - now constructor.
Qed.

(** C10: a record of the result carries its chunk's start index and text
    unchanged, and as third component the parsed "claims" value as it is. *)
Theorem record_fields (chunks : list (Z * string)) (s : Z) (t : string) (v : json) :
  In (s, t, v) (fst (run chunks)) ->
  In (s, t) chunks /\
  exists text kvs,
    completion_create model (prompt_of t) 150 = Ok text /\
    json_loads text = Ok (JObj kvs) /\
    dict_get kvs "claims" = Some v.
Proof.
  rewrite run_flat. simpl. intros Hin.
  apply in_flat_map in Hin as [[s' t'] [Hc Hr]].
  unfold chunk_records in Hr. simpl in Hr.
  destruct (try_chunk _ _ _ _ s' t') as [[r|]|e] eqn:Ht; try contradiction.
  destruct Hr as [Hr | []]. subst r.
  destruct (try_chunk_some s' t' _ Ht) as (text & kvs & v' & H1 & H2 & H3 & _ & Hr).
  injection Hr as -> -> ->. split; [exact Hc|]. now exists text, kvs.
Qed.

(** C5, amended: whole-document mode returns the object's "claims" value
    as it is (the empty list when absent) and prints nothing when the call
    succeeds and the text parses as a JSON object; it prints the error and
    returns [None] when the call raises, when the text is not JSON, or
    when the parsed value is not an object; [None] differs from [[]]. *)
Theorem doc_mode_outcomes (doc : string) :
  let res := check_doc_with_openai completion_create json_loads doc model
               system_prompt openai_api_key in
  (forall e, completion_create model (prompt_of doc) 300 = Err e ->
     res = (JNull, [DocFailed e])) /\
  (forall text e, completion_create model (prompt_of doc) 300 = Ok text ->
     json_loads text = Err e -> res = (JNull, [DocFailed e])) /\
  (forall text j, completion_create model (prompt_of doc) 300 = Ok text ->
     json_loads text = Ok j -> (forall kvs, j <> JObj kvs) ->
     exists e, res = (JNull, [DocFailed e])) /\
  (forall text kvs, completion_create model (prompt_of doc) 300 = Ok text ->
     json_loads text = Ok (JObj kvs) ->
     res = (match dict_get kvs "claims" with Some v => v | None => JArr [] end, [])) /\
  JArr [] <> JNull.
Proof.
  intros res. unfold res, check_doc_with_openai, bind.
  split; [|split; [|split; [|split]]].
  - intros e H. now rewrite H.
  - intros text e H1 H2. now rewrite H1, H2.
  - intros text j H1 H2 Hj. rewrite H1, H2.
    destruct j as [| | | | |kvs]; try (eexists; reflexivity).
    exfalso. exact (Hj kvs eq_refl).
  - intros text kvs H1 H2. now rewrite H1, H2.
  - discriminate.
Qed.

End ExtractorProps.

(** C5, counterexample: a service answering {"claims": null} makes
    [as_json.get("claims", [])] return [None], the value also returned on
    failure, with nothing printed. *)
Lemma doc_null_claims_is_sentinel : ~ doc_success_not_sentinel.
Proof.
  intros H.
  apply (H (fun _ _ _ => Ok null_response) demo_json_loads "d"%string "m"%string "p"%string "k"%string).
  - exists null_response, [("claims"%string, JNull)]. split; [reflexivity | vm_compute; reflexivity].
  - vm_compute. reflexivity.
Qed.

(** * Witnesses: the claims' hypotheses hold on concrete inputs *)

Lemma chunks_cover_document_witness :
  4 <= 8 /\
  exists chunks,
    check_text_detailed "The  quick brown" 8 = Ok chunks /\
    join space (map snd chunks) = join space (split (lower "The  quick brown")).
Proof. split; [lia | apply (chunks_cover_document "The  quick brown" 8); lia]. Defined.

Lemma chunk_sizes_witness :
  4 <= 8 /\
  exists chunks,
    check_text_detailed "a b c" 8 = Ok chunks /\
    forall i s t, nth_error chunks i = Some (s, t) ->
      ((S i < length chunks)%nat -> Z.of_nat (length (split t)) = 8 / 4) /\
      (S i = length chunks ->
         let n := Z.of_nat (length (split (lower "a b c"))) in
         Z.of_nat (length (split t)) = if n mod (8 / 4) =? 0 then 8 / 4 else n mod (8 / 4)).
Proof. split; [lia | apply (chunk_sizes "a b c" 8); lia]. Defined.

Lemma chunk_offsets_witness :
  4 <= 8 /\
  exists chunks,
    check_text_detailed "a b c" 8 = Ok chunks /\
    forall i s t, nth_error chunks i = Some (s, t) -> s = Z.of_nat i * (8 / 4).
Proof. split; [lia | apply (chunk_offsets "a b c" 8); lia]. Defined.

Lemma chunks_nonempty_witness :
  4 <= 8 /\
  exists chunks,
    check_text_detailed EmptyString 8 = Ok chunks /\
    (forall s t, In (s, t) chunks -> t <> EmptyString) /\
    (EmptyString = EmptyString -> chunks = []).
Proof. split; [lia | apply (chunks_nonempty EmptyString 8); lia]. Defined.

Lemma chunk_failure_isolated_witness :
  demo_create "m" ("p" ++ newline ++ newline ++ "bad") 150 = Err (ServiceError "connection reset") /\
  check_with_openai demo_create demo_json_loads
    ([(0, "one"%string)] ++ (2, "bad"%string) :: [(4, "two"%string)]) "m" "p" "k" =
  (fst (check_with_openai demo_create demo_json_loads
          ([(0, "one"%string)] ++ [(4, "two"%string)]) "m" "p" "k"),
   snd (check_with_openai demo_create demo_json_loads [(0, "one"%string)] "m" "p" "k")
   ++ [ChunkFailed 2 (ServiceError "connection reset")]
   ++ snd (check_with_openai demo_create demo_json_loads [(4, "two"%string)] "m" "p" "k")).
Proof.
  split; [vm_compute; reflexivity|].
  apply (chunk_failure_isolated demo_create demo_json_loads "m" "p" "k"
           [(0, "one"%string)] 2 "bad" [(4, "two"%string)]).
  left. vm_compute. reflexivity.
Defined.

Lemma record_fields_witness :
  In (0, "one"%string, JArr [JInt 1])
     (fst (check_with_openai demo_create demo_json_loads [(0, "one"%string)] "m" "p" "k")) /\
  In (0, "one"%string) [(0, "one"%string)] /\
  exists text kvs,
    demo_create "m" ("p" ++ newline ++ newline ++ "one") 150 = Ok text /\
    demo_json_loads text = Ok (JObj kvs) /\
    dict_get kvs "claims" = Some (JArr [JInt 1]).
Proof.
  assert (H : In (0, "one"%string, JArr [JInt 1])
     (fst (check_with_openai demo_create demo_json_loads [(0, "one"%string)] "m" "p" "k")))
    by (vm_compute; left; reflexivity).
  split; [exact H|].
  exact (record_fields demo_create demo_json_loads "m" "p" "k" [(0, "one"%string)] 0 "one" _ H).
Defined.

(** * Further properties of the chunker *)

Lemma lower_char_not_upper (c : ascii) : is_upper (lower_char c) = false.
Proof. destruct c as [[] [] [] [] [] [] [] []]; reflexivity. Qed.

Lemma lower_char_id (c : ascii) : is_upper c = false -> lower_char c = c.
Proof. destruct c as [[] [] [] [] [] [] [] []]; first [reflexivity | discriminate]. Qed.

Lemma lower_char_space (c : ascii) : is_space (lower_char c) = is_space c.
Proof. destruct c as [[] [] [] [] [] [] [] []]; reflexivity. Qed.

Lemma str_all_app (f : ascii -> bool) (a b : string) :
  str_all f (a ++ b)%string = str_all f a && str_all f b.
Proof. induction a as [|c a IH]; simpl; [reflexivity | now rewrite IH, andb_assoc]. Qed.

Lemma lower_all_lower (s : string) : str_all (fun c => negb (is_upper c)) (lower s) = true.
Proof. induction s as [|c s IH]; simpl; [reflexivity | now rewrite lower_char_not_upper, IH]. Qed.

Lemma lower_id (s : string) : str_all (fun c => negb (is_upper c)) s = true -> lower s = s.
Proof.
  induction s as [|c s IH]; simpl; [reflexivity|].
  intros H. apply andb_true_iff in H as [Hc Hs]. apply negb_true_iff in Hc.
  now rewrite lower_char_id, IH.
Qed.

Lemma lower_idem (s : string) : lower (lower s) = lower s.
Proof. apply lower_id, lower_all_lower. Qed.

Lemma split_aux_all (f : ascii -> bool) (s cur : string) :
  str_all f s = true -> str_all f cur = true ->
  Forall (fun w => str_all f w = true) (split_aux s cur).
Proof.
  revert cur; induction s as [|c s IH]; intros cur Hs Hcur; simpl in *.
  - destruct cur; repeat constructor; exact Hcur.
  - apply andb_true_iff in Hs as [Hc Hs].
    destruct (is_space c).
    + destruct cur; [now apply IH|]. constructor; [exact Hcur | now apply IH].
    + apply IH; [exact Hs|]. rewrite str_all_app, Hcur. simpl. now rewrite Hc.
Qed.

Lemma join_all (f : ascii -> bool) (sep : string) (ws : list string) :
  str_all f sep = true -> Forall (fun w => str_all f w = true) ws ->
  str_all f (join sep ws) = true.
Proof.
  intros Hsep H. induction H as [|w ws Hw Hws IH]; [reflexivity|].
  destruct ws as [|w' ws]; [exact Hw|].
  change (join sep (w :: w' :: ws)) with (w ++ sep ++ join sep (w' :: ws))%string.
  now rewrite !str_all_app, Hw, Hsep, IH.
Qed.

Lemma split_aux_spaces (s : string) :
  str_all is_space s = true -> split_aux s EmptyString = [].
Proof.
  induction s as [|c s IH]; simpl; [reflexivity|].
  intros H. apply andb_true_iff in H as [Hc Hs]. rewrite Hc. now apply IH.
Qed.

Lemma lower_spaces (s : string) : str_all is_space s = true -> str_all is_space (lower s) = true.
Proof.
  induction s as [|c s IH]; simpl; [reflexivity|].
  intros H. apply andb_true_iff in H as [Hc Hs]. now rewrite lower_char_space, Hc, IH.
Qed.

(** The chunker sees the document only through its lower-cased words. *)
Lemma check_text_detailed_words (d1 d2 : string) (max_tokens : Z) :
  split (lower d1) = split (lower d2) ->
  check_text_detailed d1 max_tokens = check_text_detailed d2 max_tokens.
Proof. intros H. unfold check_text_detailed. now rewrite H. Qed.

Lemma check_text_detailed_negative (doc : string) (max_tokens : Z) :
  max_tokens < 0 -> check_text_detailed doc max_tokens = Ok [].
Proof.
  intros Hneg. unfold check_text_detailed, range.
  assert (Hq : max_tokens / 4 < 0) by (apply Z.div_lt_upper_bound; lia).
  rewrite (proj2 (Z.eqb_neq (max_tokens / 4) 0)) by lia. simpl.
  unfold range_len.
  rewrite (proj2 (Z.ltb_ge 0 (max_tokens / 4))) by lia.
  rewrite (proj2 (Z.ltb_ge (Z.of_nat (length (split (lower doc)))) 0)) by lia.
  reflexivity.
Qed.

Lemma check_text_detailed_zero (doc : string) (max_tokens : Z) :
  0 <= max_tokens < 4 -> exists e, check_text_detailed doc max_tokens = Err e.
Proof.
  intros H. unfold check_text_detailed, range. rewrite Z.div_small by lia.
  eexists. reflexivity.
Qed.

(** Whatever [max_tokens], a successful chunking is either empty or the
    windows of [max_tokens // 4] words with [max_tokens >= 4]. *)
Lemma check_text_detailed_ok_cases (doc : string) (max_tokens : Z) chunks :
  check_text_detailed doc max_tokens = Ok chunks ->
  chunks = [] \/
  (4 <= max_tokens /\
   chunks = map (fun k => (Z.of_nat k * (max_tokens / 4),
                  join space (chunk_words (split (lower doc)) (Z.to_nat (max_tokens / 4)) k)))
               (seq 0 (nchunks (length (split (lower doc))) (max_tokens / 4)))).
Proof.
  intros H.
  destruct (Z_lt_le_dec max_tokens 0) as [Hneg | Hnn].
  - left. rewrite check_text_detailed_negative in H by exact Hneg. now injection H.
  - destruct (Z_lt_le_dec max_tokens 4) as [Hs | Hbig].
    + destruct (check_text_detailed_zero doc max_tokens ltac:(lia)) as [e He].
      congruence.
    + right. split; [exact Hbig|].
      rewrite check_text_detailed_windows in H by exact Hbig. now injection H.
Qed.

Lemma windows_join (w : list string) (c : Z) :
  0 < c ->
  join space (map (fun k => join space (chunk_words w (Z.to_nat c) k)) (seq 0 (nchunks (length w) c)))
  = join space w.
Proof.
  intros Hc.
  rewrite <- (map_map (chunk_words w (Z.to_nat c)) (join space)).
  rewrite join_concat.
  - rewrite concat_chunk_words. simpl.
    destruct (nchunks_facts (length w) c Hc) as [Hcov _].
    now rewrite firstn_all2 by exact Hcov.
  - apply Forall_forall. intros l Hl. apply in_map_iff in Hl as [k [<- Hk]].
    apply in_seq in Hk. apply chunk_words_nonempty; [exact Hc | lia].
Qed.

(** Extra: for [max_tokens >= 4] there are [ceil(len(words) / (max_tokens // 4))]
    chunks, where [words] are the lower-cased document's words. *)
Theorem chunk_count (doc : string) (max_tokens : Z) :
  4 <= max_tokens ->
  exists chunks,
    check_text_detailed doc max_tokens = Ok chunks /\
    Z.of_nat (length chunks) =
    (Z.of_nat (length (split (lower doc))) + max_tokens / 4 - 1) / (max_tokens / 4).
Proof.
  intros Hmt. assert (Hc : 0 < max_tokens / 4) by (apply Z.div_str_pos; lia).
  eexists; split; [apply check_text_detailed_windows; exact Hmt|].
  rewrite length_map, length_seq. unfold nchunks, range_len.
  rewrite (proj2 (Z.ltb_lt 0 _) Hc).
  set (c := max_tokens / 4) in *. set (n := Z.of_nat (length (split (lower doc)))).
  destruct (Z.ltb_spec 0 n) as [Hn | Hn].
  - replace (n + c - 1) with ((n - 0 - 1) + 1 * c) by lia.
    rewrite Z.div_add by lia.
    pose proof (Z.div_pos (n - 0 - 1) c ltac:(lia) Hc). lia.
  - assert (n = 0) by lia. rewrite H, Z.div_small by lia. reflexivity.
Qed.

(** Extra: for [max_tokens >= 4], splitting each chunk text into words and
    concatenating the results gives back the document's lower-cased words,
    in order: every word is in exactly one chunk. *)
Theorem chunk_words_concat (doc : string) (max_tokens : Z) :
  4 <= max_tokens ->
  exists chunks,
    check_text_detailed doc max_tokens = Ok chunks /\
    concat (map (fun c => split (snd c)) chunks) = split (lower doc).
Proof.
  intros Hmt. assert (Hc : 0 < max_tokens / 4) by (apply Z.div_str_pos; lia).
  eexists; split; [apply check_text_detailed_windows; exact Hmt|].
  rewrite map_map. simpl.
  rewrite (map_ext_in _ (chunk_words (split (lower doc)) (Z.to_nat (max_tokens / 4)))).
  - rewrite concat_chunk_words. simpl.
    destruct (nchunks_facts (length (split (lower doc))) (max_tokens / 4) Hc) as [Hcov _].
    now rewrite firstn_all2 by exact Hcov.
  - intros k _. apply split_join, chunk_words_good.
Qed.

(** Extra: no chunk text contains an ASCII capital letter. *)
Theorem chunk_texts_lowercase (doc : string) (max_tokens : Z) chunks :
  check_text_detailed doc max_tokens = Ok chunks ->
  forall s t, In (s, t) chunks -> str_all (fun c => negb (is_upper c)) t = true.
Proof.
  intros H s t Hin.
  destruct (check_text_detailed_ok_cases doc max_tokens chunks H) as [-> | [_ ->]];
    [destruct Hin|].
  apply in_map_iff in Hin as [k [Hk _]]. injection Hk as _ <-.
  apply join_all; [reflexivity|].
  apply Forall_firstn', Forall_skipn', split_aux_all; [apply lower_all_lower | reflexivity].
Qed.

(** Extra: every chunk text is whitespace-normalised: its words joined with
    single spaces give the text back (no leading, trailing or repeated
    whitespace, no tab or newline). *)
Theorem chunk_texts_normalised (doc : string) (max_tokens : Z) chunks :
  check_text_detailed doc max_tokens = Ok chunks ->
  forall s t, In (s, t) chunks -> join space (split t) = t.
Proof.
  intros H s t Hin.
  destruct (check_text_detailed_ok_cases doc max_tokens chunks H) as [-> | [_ ->]];
    [destruct Hin|].
  apply in_map_iff in Hin as [k [Hk _]]. injection Hk as _ <-.
  now rewrite split_join by apply chunk_words_good.
Qed.

(** Extra: the start index of every chunk lies in [0, len(words)). *)
Theorem chunk_starts_in_bounds (doc : string) (max_tokens : Z) chunks :
  check_text_detailed doc max_tokens = Ok chunks ->
  forall s t, In (s, t) chunks -> 0 <= s < Z.of_nat (length (split (lower doc))).
Proof.
  intros H s t Hin.
  destruct (check_text_detailed_ok_cases doc max_tokens chunks H) as [-> | [Hmt ->]];
    [destruct Hin|].
  assert (Hc : 0 < max_tokens / 4) by (apply Z.div_str_pos; lia).
  apply in_map_iff in Hin as [k [Hk Hseq]]. injection Hk as <- _.
  apply in_seq in Hseq.
  destruct (nchunks_facts (length (split (lower doc))) (max_tokens / 4) Hc) as [_ [Hlt _]].
  specialize (Hlt k ltac:(lia)). nia.
Qed.

(** Extra: chunking is idempotent: chunking the space-joined chunk texts
    again, with the same [max_tokens], gives the same chunks. *)
Theorem rechunk_same (doc : string) (max_tokens : Z) chunks :
  check_text_detailed doc max_tokens = Ok chunks ->
  check_text_detailed (join space (map snd chunks)) max_tokens = Ok chunks.
Proof.
  intros H.
  destruct (check_text_detailed_ok_cases doc max_tokens chunks H) as [-> | [Hmt Hch]].
  - simpl. destruct (Z_lt_le_dec max_tokens 0) as [Hneg | Hnn].
    + now apply check_text_detailed_negative.
    + destruct (Z_lt_le_dec max_tokens 4) as [Hs | Hbig].
      * destruct (check_text_detailed_zero doc max_tokens ltac:(lia)) as [e He]. congruence.
      * rewrite check_text_detailed_windows by exact Hbig.
        unfold nchunks, range_len. simpl. now destruct (0 <? max_tokens / 4).
  - rewrite <- H. apply check_text_detailed_words.
    assert (Hc : 0 < max_tokens / 4) by (apply Z.div_str_pos; lia).
    rewrite Hch, map_map. simpl. rewrite windows_join by exact Hc.
    rewrite lower_id.
    + apply split_join, split_good.
    + apply join_all; [reflexivity|].
      apply split_aux_all; [apply lower_all_lower | reflexivity].
Qed.

(** Extra: chunking ignores letter case: a document and its lower-cased
    version give the same result, for every [max_tokens]. *)
Theorem chunking_case_insensitive (doc : string) (max_tokens : Z) :
  check_text_detailed (lower doc) max_tokens = check_text_detailed doc max_tokens.
Proof. apply check_text_detailed_words. now rewrite lower_idem. Qed.

(** Extra: for [max_tokens >= 4], a document made only of whitespace gives
    the empty list of chunks. *)
Theorem whitespace_document_no_chunks (doc : string) (max_tokens : Z) :
  4 <= max_tokens -> str_all is_space doc = true ->
  check_text_detailed doc max_tokens = Ok [].
Proof.
  intros Hmt Hsp.
  rewrite (check_text_detailed_words doc EmptyString).
  - unfold check_text_detailed, range.
    rewrite (proj2 (Z.eqb_neq (max_tokens / 4) 0))
      by (assert (0 < max_tokens / 4) by (apply Z.div_str_pos; lia); lia).
    unfold range_len. simpl.
    destruct (0 <? max_tokens / 4); reflexivity.
  - unfold split. now rewrite split_aux_spaces by (now apply lower_spaces).
Qed.

(** Extra: for [max_tokens >= 4], a non-empty document of at most
    [max_tokens // 4] words is one chunk, starting at 0, holding the whole
    normalised document. *)
Theorem short_document_one_chunk (doc : string) (max_tokens : Z) :
  4 <= max_tokens ->
  split (lower doc) <> [] ->
  Z.of_nat (length (split (lower doc))) <= max_tokens / 4 ->
  check_text_detailed doc max_tokens = Ok [(0, join space (split (lower doc)))].
Proof.
  intros Hmt Hne Hle. rewrite check_text_detailed_windows by exact Hmt.
  assert (Hc : 0 < max_tokens / 4) by (apply Z.div_str_pos; lia).
  set (w := split (lower doc)) in *.
  assert (Hn : (0 < length w)%nat) by (destruct w; [congruence | simpl; lia]).
  replace (nchunks (length w) (max_tokens / 4)) with 1%nat.
  - simpl. unfold chunk_words. simpl. rewrite firstn_all2 by lia. reflexivity.
  - unfold nchunks, range_len. rewrite (proj2 (Z.ltb_lt 0 _) Hc).
    rewrite (proj2 (Z.ltb_lt 0 (Z.of_nat (length w)))) by lia.
    rewrite Z.div_small by lia. reflexivity.
Qed.

(** * Further properties of the claim extractors *)

Lemma sublist_map {A B} (f : A -> B) (l1 l2 : list A) :
  sublist l1 l2 -> sublist (map f l1) (map f l2).
Proof. induction 1; simpl; now constructor. Qed.

Lemma sublist_sorted {A} (R : A -> A -> Prop) (l1 l2 : list A) :
  sublist l1 l2 -> StronglySorted R l2 -> StronglySorted R l1.
Proof.
  induction 1 as [|x l1 l2 _ IH|x l1 l2 Hs IH]; intros H; [constructor| |].
  - inversion H; auto.
  - inversion H as [|? ? H1 H2]; subst. constructor; [auto|].
    apply Forall_forall. intros y Hy.
    assert (Hin : forall z, In z l1 -> In z l2).
    { clear -Hs. induction Hs; simpl; intuition. }
    rewrite Forall_forall in H2. auto.
Qed.

Lemma window_starts_sorted (c : Z) (a L : nat) :
  0 < c -> StronglySorted Z.lt (map (fun k => Z.of_nat k * c) (seq a L)).
Proof.
  intros Hc. revert a; induction L as [|L IH]; intros a; simpl; constructor; [apply IH|].
  apply Forall_forall. intros y Hy. apply in_map_iff in Hy as [k [<- Hk]].
  apply in_seq in Hk. nia.
Qed.

Section ExtraExtractorProps.

Variable completion_create : string -> string -> Z -> pyres string.
Variable json_loads : string -> pyres json.
Variables model system_prompt openai_api_key : string.

Local Abbreviation run chunks :=
  (check_with_openai completion_create json_loads chunks model system_prompt openai_api_key).

Local Abbreviation prompt_of chunk :=
  (system_prompt ++ newline ++ newline ++ chunk)%string.

Lemma try_chunk_err_cases (s : Z) (t : string) (e : exn) :
  try_chunk completion_create json_loads model system_prompt s t = Err e ->
  completion_create model (prompt_of t) 150 = Err e \/
  exists text, completion_create model (prompt_of t) 150 = Ok text /\
    (json_loads text = Err e \/
     exists j, json_loads text = Ok j /\ (forall kvs, j <> JObj kvs) /\
               e = AttributeError "object has no attribute 'get'").
Proof.
  unfold try_chunk, bind. intros H.
  destruct (completion_create _ _ _) as [text|e'] eqn:Hc; [|left; congruence].
  right. exists text. split; [reflexivity|].
  destruct (json_loads text) as [j|e'] eqn:Hj; [|left; congruence].
  right. exists j. split; [reflexivity|].
  destruct j as [| | | | |kvs]; simpl in H;
    try (injection H as <-; split; [discriminate | reflexivity]).
  destruct (dict_get kvs "claims") as [v|] eqn:Hg; simpl in H.
  - destruct (py_truthy v); simpl in H; try rewrite Hg in H; discriminate.
  - discriminate.
Qed.

Lemma run_sublist (chunks : list (Z * string)) :
  sublist (map (fun '(s, t, _) => (s, t)) (fst (run chunks))) chunks.
Proof.
  rewrite run_flat. simpl.
  induction chunks as [|[s t] chunks IH]; simpl; [constructor|].
  unfold chunk_records at 1. simpl.
  destruct (try_chunk _ _ _ _ s t) as [[r|]|e] eqn:Ht.
  - destruct (try_chunk_some _ _ _ _ s t r Ht) as (_ & _ & v & _ & _ & _ & _ & ->).
    simpl. now constructor.
  - now constructor.
  - now constructor.
Qed.

(** Extra: processing a list of chunks in two batches gives the same
    result and the same printed output as processing it at once. *)
Theorem run_batches (l1 l2 : list (Z * string)) :
  let run chunks := check_with_openai completion_create json_loads chunks model
                      system_prompt openai_api_key in
  run (l1 ++ l2) = (fst (run l1) ++ fst (run l2), snd (run l1) ++ snd (run l2)).
Proof. intros run. unfold run. rewrite !run_flat. simpl. now rewrite !flat_map_app. Qed.

(** Extra: every failure printed in chunked mode names the start index of
    an input chunk, and its error is raised by the service call, by
    [json.loads], or by [.get] on a parsed value that is not an object;
    no other error (for instance a [KeyError]) is ever reported. *)
Theorem failure_sources (chunks : list (Z * string)) (s : Z) (e : exn) :
  In (ChunkFailed s e) (snd (run chunks)) ->
  exists t, In (s, t) chunks /\
  (completion_create model (prompt_of t) 150 = Err e \/
   exists text, completion_create model (prompt_of t) 150 = Ok text /\
     (json_loads text = Err e \/
      exists j, json_loads text = Ok j /\ (forall kvs, j <> JObj kvs) /\
                e = AttributeError "object has no attribute 'get'")).
Proof.
  rewrite run_flat. simpl. intros Hin.
  apply in_flat_map in Hin as [[s' t] [Hc He]].
  unfold chunk_events in He. simpl in He.
  destruct (try_chunk _ _ _ _ s' t) as [[r|]|e'] eqn:Ht; try contradiction.
  destruct He as [He | []]. injection He as -> ->.
  exists t. split; [exact Hc|]. eapply try_chunk_err_cases. exact Ht.
Qed.

(** Extra: each chunk yields at most one record or one printed failure,
    never both: records and failures together are at most as many as the
    chunks. *)
Theorem outputs_bounded (chunks : list (Z * string)) :
  let res := check_with_openai completion_create json_loads chunks model
               system_prompt openai_api_key in
  (length (fst res) + length (snd res) <= length chunks)%nat.
Proof.
  cbv zeta. rewrite run_flat. simpl.
  induction chunks as [|c chunks IH]; simpl; [lia|].
  rewrite !length_app.
  unfold chunk_records at 1, chunk_events at 1.
  destruct (try_chunk _ _ _ _ _ _) as [[r|]|e]; simpl; lia.
Qed.

(** Extra: the claims value of every returned record is truthy: a record
    never carries an empty list, [None], [0], [false] or an empty string. *)
Theorem records_claims_truthy (chunks : list (Z * string)) (s : Z) (t : string) (v : json) :
  In (s, t, v) (fst (run chunks)) -> py_truthy v = true.
Proof.
  rewrite run_flat. simpl. intros Hin.
  apply in_flat_map in Hin as [[s' t'] [_ Hr]].
  unfold chunk_records in Hr. simpl in Hr.
  destruct (try_chunk _ _ _ _ s' t') as [[r|]|e] eqn:Ht; try contradiction.
  destruct Hr as [Hr | []]. subst r.
  destruct (try_chunk_some _ _ _ _ s' t' _ Ht) as (_ & _ & v' & _ & _ & _ & Hv & Hr).
  injection Hr as _ _ ->. exact Hv.
Qed.

(** Extra: when every service call raises the same error [e] (as with a
    client object that lacks the [Completion] attribute), chunked mode
    returns the empty list and prints one failure per chunk, in order,
    with the chunk's start index. *)
Theorem failing_service_run (e : exn) (chunks : list (Z * string)) :
  (forall m p n, completion_create m p n = Err e) ->
  run chunks = ([], map (fun c => ChunkFailed (fst c) e) chunks).
Proof.
  intros Hf. rewrite run_flat.
  assert (Ht : forall s t, try_chunk completion_create json_loads model system_prompt s t = Err e).
  { intros s t. unfold try_chunk, bind. now rewrite Hf. }
  f_equal; induction chunks as [|[s t] chunks IH]; simpl; try reflexivity;
    (try unfold chunk_records at 1); (try unfold chunk_events at 1); simpl; rewrite Ht; simpl; now rewrite IH.
Qed.

(** Extra: run on the chunker's output, chunked mode returns records whose
    start indices strictly increase. *)
Theorem pipeline_starts_increasing (doc : string) (max_tokens : Z) chunks :
  check_text_detailed doc max_tokens = Ok chunks ->
  StronglySorted Z.lt (map (fun '(s, _, _) => s) (fst (run chunks))).
Proof.
  intros H.
  replace (map (fun '(s, _, _) => s) (fst (run chunks)))
    with (map fst (map (fun '(s, t, _) => (s, t)) (fst (run chunks)))).
  2:{ rewrite map_map. apply map_ext. now intros [[s t] v]. }
  apply (sublist_sorted _ _ (map fst chunks)); [apply sublist_map, run_sublist|].
  destruct (check_text_detailed_ok_cases doc max_tokens chunks H) as [-> | [Hmt ->]];
    [constructor|].
  rewrite map_map. simpl. apply window_starts_sorted.
  apply Z.div_str_pos. lia.
Qed.


End ExtraExtractorProps.

(** * Witnesses for the further properties *)

Lemma chunk_count_witness :
  4 <= 4 /\
  exists chunks,
    check_text_detailed "A b  c" 4 = Ok chunks /\
    Z.of_nat (length chunks) =
    (Z.of_nat (length (split (lower "A b  c"))) + 4 / 4 - 1) / (4 / 4).
Proof. split; [lia | apply (chunk_count "A b  c" 4); lia]. Defined.

Lemma chunk_words_concat_witness :
  4 <= 8 /\
  exists chunks,
    check_text_detailed "A b  c" 8 = Ok chunks /\
    concat (map (fun c => split (snd c)) chunks) = split (lower "A b  c").
Proof. split; [lia | apply (chunk_words_concat "A b  c" 8); lia]. Defined.

Lemma chunk_texts_lowercase_witness :
  check_text_detailed "The Quick" 8 = Ok [(0, "the quick"%string)] /\
  In (0, "the quick"%string) [(0, "the quick"%string)] /\
  str_all (fun c => negb (is_upper c)) "the quick" = true.
Proof.
  assert (H : check_text_detailed "The Quick" 8 = Ok [(0, "the quick"%string)]) by reflexivity.
  assert (Hin : In (0, "the quick"%string) [(0, "the quick"%string)]) by (left; reflexivity).
  exact (conj H (conj Hin (chunk_texts_lowercase "The Quick" 8 _ H 0 "the quick" Hin))).
Defined.

Lemma chunk_texts_normalised_witness :
  check_text_detailed "The  Quick" 8 = Ok [(0, "the quick"%string)] /\
  In (0, "the quick"%string) [(0, "the quick"%string)] /\
  join space (split "the quick") = "the quick"%string.
Proof.
  assert (H : check_text_detailed "The  Quick" 8 = Ok [(0, "the quick"%string)]) by reflexivity.
  assert (Hin : In (0, "the quick"%string) [(0, "the quick"%string)]) by (left; reflexivity).
  exact (conj H (conj Hin (chunk_texts_normalised "The  Quick" 8 _ H 0 "the quick" Hin))).
Defined.

Lemma chunk_starts_in_bounds_witness :
  check_text_detailed "a b c" 4 = Ok abc_chunks /\
  In (2, "c"%string) abc_chunks /\
  0 <= 2 < Z.of_nat (length (split (lower "a b c"))).
Proof.
  assert (H : check_text_detailed "a b c" 4 = Ok abc_chunks) by reflexivity.
  assert (Hin : In (2, "c"%string) abc_chunks) by (right; right; left; reflexivity).
  exact (conj H (conj Hin (chunk_starts_in_bounds "a b c" 4 _ H 2 "c" Hin))).
Defined.

Lemma rechunk_same_witness :
  check_text_detailed "A  b c" 4 = Ok abc_chunks /\
  check_text_detailed (join space (map snd abc_chunks)) 4 = Ok abc_chunks.
Proof.
  assert (H : check_text_detailed "A  b c" 4 = Ok abc_chunks) by reflexivity.
  exact (conj H (rechunk_same "A  b c" 4 _ H)).
Defined.

Lemma whitespace_document_no_chunks_witness :
  4 <= 8 /\ str_all is_space (String " " (String (ascii_of_nat 10) EmptyString)) = true /\
  check_text_detailed (String " " (String (ascii_of_nat 10) EmptyString)) 8 = Ok [].
Proof.
  split; [lia|]. split; [reflexivity|].
  apply whitespace_document_no_chunks; [lia | reflexivity].
Defined.

Lemma short_document_one_chunk_witness :
  4 <= 12 /\ split (lower "A b") <> [] /\
  Z.of_nat (length (split (lower "A b"))) <= 12 / 4 /\
  check_text_detailed "A b" 12 = Ok [(0, join space (split (lower "A b")))].
Proof.
  assert (H1 : split (lower "A b") <> []) by discriminate.
  assert (H2 : Z.of_nat (length (split (lower "A b"))) <= 12 / 4) by (vm_compute; discriminate).
  split; [lia|]. split; [exact H1|]. split; [exact H2|].
  exact (short_document_one_chunk "A b" 12 ltac:(lia) H1 H2).
Defined.

Lemma failure_sources_witness :
  In (ChunkFailed 2 (ServiceError "connection reset"))
     (snd (check_with_openai demo_create demo_json_loads
             [(0, "one"%string); (2, "bad"%string)] "m" "p" "k")) /\
  exists t, In (2, t) [(0, "one"%string); (2, "bad"%string)] /\
  (demo_create "m" ("p" ++ newline ++ newline ++ t) 150 = Err (ServiceError "connection reset") \/
   exists text, demo_create "m" ("p" ++ newline ++ newline ++ t) 150 = Ok text /\
     (demo_json_loads text = Err (ServiceError "connection reset") \/
      exists j, demo_json_loads text = Ok j /\ (forall kvs, j <> JObj kvs) /\
                ServiceError "connection reset" = AttributeError "object has no attribute 'get'")).
Proof.
  assert (H : In (ChunkFailed 2 (ServiceError "connection reset"))
     (snd (check_with_openai demo_create demo_json_loads
             [(0, "one"%string); (2, "bad"%string)] "m" "p" "k")))
    by (vm_compute; left; reflexivity).
  exact (conj H (failure_sources demo_create demo_json_loads "m" "p" "k" _ 2 _ H)).
Defined.

Lemma records_claims_truthy_witness :
  In (0, "one"%string, JArr [JInt 1])
     (fst (check_with_openai demo_create demo_json_loads [(0, "one"%string)] "m" "p" "k")) /\
  py_truthy (JArr [JInt 1]) = true.
Proof.
  assert (H : In (0, "one"%string, JArr [JInt 1])
     (fst (check_with_openai demo_create demo_json_loads [(0, "one"%string)] "m" "p" "k")))
    by (vm_compute; left; reflexivity).
  exact (conj H (records_claims_truthy demo_create demo_json_loads "m" "p" "k" _ 0 "one" _ H)).
Defined.

Lemma failing_service_run_witness :
  (forall m p n, failing_create m p n = Err missing_completion_attr) /\
  check_with_openai failing_create demo_json_loads abc_chunks "m" "p" "k"
  = ([], map (fun c => ChunkFailed (fst c) missing_completion_attr) abc_chunks).
Proof.
  assert (Hf : forall m p n, failing_create m p n = Err missing_completion_attr) by reflexivity.
  exact (conj Hf (failing_service_run _ demo_json_loads "m" "p" "k" _ abc_chunks Hf)).
Defined.

Lemma pipeline_starts_increasing_witness :
  check_text_detailed "a b c" 4 = Ok abc_chunks /\
  StronglySorted Z.lt
    (map (fun '(s, _, _) => s)
       (fst (check_with_openai demo_create demo_json_loads abc_chunks "m" "p" "k"))).
Proof.
  assert (H : check_text_detailed "a b c" 4 = Ok abc_chunks) by reflexivity.
  exact (conj H (pipeline_starts_increasing demo_create demo_json_loads "m" "p" "k" "a b c" 4 _ H)).
Defined.
